(** * The multi-check directive: catalog / selection reconciliation

    A shallow embedding of the multi-check directive (the [link] function
    and its helpers [findItemIndex], [attachItemElements],
    [clearItemElements] and [checkSelectedItems]) together with the
    properties of its three entry points: the two watch listeners and the
    click listener registered on the list element. *)

From Stdlib Require Import String Ascii List ZArith Arith Bool Lia.
From Stdlib Require Import DecimalString FinFun.
From Equations Require Import Equations.
Import ListNotations.

Local Open Scope string_scope.
Local Open Scope list_scope.

(** ** JavaScript values and completions *)

(** What a statement sequence ends with: a returned value or a thrown error. *)
Inductive JSError : Type :=
| TypeError.

Inductive completion (A : Type) : Type :=
| Normal (a : A)
| Throw (e : JSError).

Arguments Normal {A} a.
Arguments Throw {A} e.

(** The values the directive's functions return. *)
Inductive JSValue : Type :=
| VBool (b : bool)
| VNumber (n : Z)
| VUndefined.

(** A bound scope property, typed [{string[]=}] in the source: an array, or
    [undefined] when the attribute is not bound. *)
Inductive binding (A : Type) : Type :=
| JArray (xs : list A)
| JUndefined.

Arguments JArray {A} xs.
Arguments JUndefined {A}.

(** [Array.isArray]. *)
Definition isArray {A} (b : binding A) : bool :=
  match b with
  | JArray _ => true
  | JUndefined => false
  end.

(** Reading [.length]: a property access on [undefined] throws. *)
Definition get_length {A} (b : binding A) : completion nat :=
  match b with
  | JArray xs => Normal (length xs)
  | JUndefined => Throw TypeError
  end.

(** [Array.prototype.indexOf] on an array of strings: the first index holding
    a strictly equal element, or -1. *)
Fixpoint indexOf_from (xs : list string) (x : string) (i : Z) : Z :=
  match xs with
  | [] => (-1)%Z
  | y :: ys => if String.eqb y x then i else indexOf_from ys x (i + 1)%Z
  end.

Definition indexOf (xs : list string) (x : string) : Z := indexOf_from xs x 0%Z.

(** [Array.prototype.push], keeping the array only. *)
Definition push {A} (xs : list A) (x : A) : list A := xs ++ [x].

(** [Array.prototype.splice(position, 1)], keeping the array only. *)
Definition splice1 {A} (xs : list A) (position : nat) : list A :=
  firstn position xs ++ skipn (S position) xs.

(** ** The document *)

(** The control of a row; the directive creates it with type checkbox. *)
Record HTMLInputElement : Type := mkInput {
  type : string;
  value : string;
  checked : bool
}.

(** A row.  [identifier] is the expando property assigned by
    [attachItemElements]; [dataset] holds the row's [data-*] attributes, and
    [labelText] the text appended to its label after the control. *)
Record HTMLLIElement : Type := mkLI {
  identifier : string;
  dataset : list (string * string);
  labelText : string;
  input : HTMLInputElement
}.

(** The handlers the directive registers. *)
Inductive Listener : Type :=
| ClickListener.

Inductive Watcher : Type :=
| onSelectedListUpdatedFn
| onAvailableListUpdatedFn.

(** The [ul.multi-check__list] element of the template: its rows, in sibling
    order, and the listeners added to it. *)
Record HTMLUListElement : Type := mkUL {
  children : list HTMLLIElement;
  eventListeners : list (string * Listener)
}.

(** An entry of the option list: a bare string or a [nodeValue] -
    [displayText] pair. *)
Inductive Item : Type :=
| BareItem (text : string)
| PairItem (nodeValue displayText : string).

(** The directive's isolated scope, with the watches installed on it. *)
Record Scope : Type := mkScope {
  selected : binding string;
  available : binding Item;
  watchers : list (string * Watcher * bool)
}.

(** Everything the directive reads and writes.  [draws] counts the calls
    made to [randomHex] so far. *)
Record World : Type := mkWorld {
  scope : Scope;
  listElement : HTMLUListElement;
  draws : nat
}.

Definition set_children (ul : HTMLUListElement) (rows : list HTMLLIElement)
  : HTMLUListElement :=
  mkUL rows (eventListeners ul).

Definition set_checked (el : HTMLInputElement) (b : bool) : HTMLInputElement :=
  mkInput (type el) (value el) b.

Definition set_input (li : HTMLLIElement) (el : HTMLInputElement) : HTMLLIElement :=
  mkLI (identifier li) (dataset li) (labelText li) el.

Definition set_selected (s : Scope) (b : binding string) : Scope :=
  mkScope b (available s) (watchers s).

(** Modelled from the spec: [isObject] of lib/core-toolkit.js, which is not
    among the sources.  An Item has two representations, a bare string or an
    explicit pair; [isObject] tells the pair from the string. *)
Definition isObject (item : Item) : bool :=
  match item with
  | BareItem _ => false
  | PairItem _ _ => true
  end.

(** The destructuring
    [isObject(item) ? item : {nodeValue: item, displayText: item}]. *)
Definition item_fields (item : Item) : string * string :=
  if isObject item then
    match item with
    | PairItem nodeValue displayText => (nodeValue, displayText)
    | BareItem text => (text, text)
    end
  else
    match item with
    | BareItem text => (text, text)
    | PairItem nodeValue displayText => (nodeValue, displayText)
    end.

(** The no-break space of the label template. *)
Definition nbsp : string :=
  String (ascii_of_nat 194) (String (ascii_of_nat 160) EmptyString).

(** ** findItemIndex *)

(** The property keys a [for ... in] loop over an HTMLCollection of [n]
    elements visits: the indices as strings, then the enumerable properties
    of the prototype. *)
Definition index_key (i : nat) : string :=
  NilEmpty.string_of_uint (Nat.to_uint i).

Definition for_in_keys (rows : list HTMLLIElement) : list string :=
  map index_key (seq 0 (length rows)) ++ ["length"; "item"; "namedItem"].

(** [dataset.identifier] of an element: the [data-identifier] attribute, or
    [undefined] ([None]). *)
Fixpoint dataset_get (d : list (string * string)) (k : string) : option string :=
  match d with
  | [] => None
  | (k', v) :: rest => if String.eqb k' k then Some v else dataset_get rest k
  end.

(** [child.dataset] when [child] is a string primitive: strings have no such
    property, the access yields [undefined] ([None]). *)
Definition string_dataset (child : string) : option (list (string * string)) :=
  None.

(** [d.identifier] where [d] is the outcome of a [.dataset] access: reading a
    property of [undefined] throws. *)
Definition read_identifier (d : option (list (string * string)))
  : completion (option string) :=
  match d with
  | Some m => Normal (dataset_get m "identifier")
  | None => Throw TypeError
  end.

(** Strict equality of two values that are strings or [undefined]. *)
Definition strict_eqb (a b : option string) : bool :=
  match a, b with
  | Some x, Some y => String.eqb x y
  | None, None => true
  | _, _ => false
  end.

(** The loop of [findItemIndex], over the keys still to visit. *)
Fixpoint findItemIndex_loop (keys : list string) (identifier : option string)
  (index : nat) : completion nat :=
  match keys with
  | [] => Normal index
  | child :: rest =>
      match read_identifier (string_dataset child) with
      | Throw e => Throw e
      | Normal id =>
          if strict_eqb id identifier then Normal index
          else findItemIndex_loop rest identifier (S index)
      end
  end.

(** What a click inside the list can land on: the list itself, a row, the
    label of a row or the control of a row.  Each carries the row it lies in,
    as the listener finds it. *)
Inductive EventTarget : Type :=
| TargetUL
| TargetLI (row : HTMLLIElement)
| TargetLABEL (row : HTMLLIElement)
| TargetINPUT (row : HTMLLIElement).

Definition nodeName (target : EventTarget) : string :=
  match target with
  | TargetUL => "UL"
  | TargetLI _ => "LI"
  | TargetLABEL _ => "LABEL"
  | TargetINPUT _ => "INPUT"
  end.

(** [closest('li')]: the nearest enclosing row, or [null] ([None]). *)
Definition closest_li (target : EventTarget) : option HTMLLIElement :=
  match target with
  | TargetUL => None
  | TargetLI row | TargetLABEL row | TargetINPUT row => Some row
  end.

(** [findItemIndex(listElement, inputElement)].  Reading [.dataset] of a
    [null] row throws. *)
Definition findItemIndex (listElement : HTMLUListElement)
  (inputElement : EventTarget) : completion nat :=
  match closest_li inputElement with
  | None => Throw TypeError
  | Some liElement =>
      let identifier := dataset_get (dataset liElement) "identifier" in
      findItemIndex_loop (for_in_keys (children listElement)) identifier 0
  end.

(** ** attachItemElements *)

Section Attach.

(** [randomHex] of lib/core-toolkit.js is not among the sources: the value
    of its [n]-th call is a parameter. *)
Variable randomHex : nat -> string.

(** One iteration of the loop: the row built for [item]. *)
Definition createItemElement (item : Item) (selected : list string) (n : nat)
  : HTMLLIElement :=
  let '(nodeValue, displayText) := item_fields item in
  let inputElement := mkInput "checkbox" nodeValue false in
  let inputElement :=
    if (0 <=? indexOf selected nodeValue)%Z then set_checked inputElement true
    else inputElement in
  mkLI (randomHex n) [] (nbsp ++ " " ++ displayText)%string inputElement.

Fixpoint attach_loop (rows : list HTMLLIElement) (available : list Item)
  (selected : list string) (n : nat) : list HTMLLIElement * nat :=
  match available with
  | [] => (rows, n)
  | item :: rest =>
      attach_loop (rows ++ [createItemElement item selected n]) rest selected (S n)
  end.

(** [attachItemElements(listElement, available, selected = [])]: the default
    applies when the argument is [undefined].  Returns [available]. *)
Definition attachItemElements (listElement : HTMLUListElement) (n : nat)
  (available : list Item) (selected : binding string)
  : list Item * HTMLUListElement * nat :=
  let selected := match selected with JArray xs => xs | JUndefined => [] end in
  let '(rows, n') := attach_loop (children listElement) available selected n in
  (available, set_children listElement rows, n').

End Attach.

(** ** clearItemElements *)

(** The loop [while (firstChild !== null) removeChild(lastChild)]. *)
Equations? clear_loop (rows : list HTMLLIElement) : list HTMLLIElement
  by wf (length rows) lt :=
  clear_loop [] := [];
  clear_loop (r :: rest) := clear_loop (removelast (r :: rest)).
Proof.
  clear clear_loop.
  revert r; induction rest as [|r' rest IH]; intro r; simpl in *.
  - lia.
  - specialize (IH r'). lia.
Qed.

(** [clearItemElements(listElement)]: the constant [length] it returns is 0. *)
Definition clearItemElements (listElement : HTMLUListElement)
  : Z * HTMLUListElement :=
  (0%Z, set_children listElement (clear_loop (children listElement))).

(** ** checkSelectedItems *)

(** [child.querySelector('input[type="checkbox"]')]: the control of the row
    when its type is checkbox, [null] ([None]) when it is not. *)
Definition querySelector_checkbox (child : HTMLLIElement)
  : option HTMLInputElement :=
  if String.eqb (type (input child)) "checkbox" then Some (input child) else None.

(** [selected.indexOf], the method itself: reading it off [undefined]
    throws. *)
Definition get_indexOf (selected : binding string) : completion (string -> Z) :=
  match selected with
  | JArray xs => Normal (indexOf xs)
  | JUndefined => Throw TypeError
  end.

(** The loop over the rows: [done] are the rows already visited.  In
    [selected.indexOf(inputElement.value)] the method is looked up first,
    then the argument is read, and reading [.value] off [null] throws; a
    throw leaves the rows as they are at that point. *)
Fixpoint check_loop (done todo : list HTMLLIElement) (selected : binding string)
  : completion unit * list HTMLLIElement :=
  match todo with
  | [] => (Normal tt, done)
  | child :: rest =>
      let inputElement := querySelector_checkbox child in
      match get_indexOf selected with
      | Throw e => (Throw e, done ++ child :: rest)
      | Normal indexOf_selected =>
          match inputElement with
          | None => (Throw TypeError, done ++ child :: rest)
          | Some el =>
              let child' :=
                if (0 <=? indexOf_selected (value el))%Z
                then set_input child (set_checked el true)
                else child in
              check_loop (done ++ [child']) rest selected
          end
      end
  end.

(** [checkSelectedItems(listElement, selected)]: [counter] is never
    incremented, the function returns 0. *)
Definition checkSelectedItems (listElement : HTMLUListElement)
  (selected : binding string) : completion Z * HTMLUListElement :=
  let counter := 0%Z in
  match check_loop [] (children listElement) selected with
  | (Normal _, rows) => (Normal counter, set_children listElement rows)
  | (Throw e, rows) => (Throw e, set_children listElement rows)
  end.

(** ** link and the handlers it installs *)

Definition set_listElement (w : World) (ul : HTMLUListElement) : World :=
  mkWorld (scope w) ul (draws w).

Definition set_scope (w : World) (s : Scope) : World :=
  mkWorld s (listElement w) (draws w).

Definition addEventListener (ul : HTMLUListElement) (name : string) (f : Listener)
  : HTMLUListElement :=
  mkUL (children ul) (eventListeners ul ++ [(name, f)]).

Definition watch (s : Scope) (expr : string) (f : Watcher) (objectEquality : bool)
  : Scope :=
  mkScope (selected s) (available s) (watchers s ++ [(expr, f, objectEquality)]).

(** [onSelectedListUpdated(current, previous)]. *)
Definition onSelectedListUpdated (current previous : binding string) (w : World)
  : completion JSValue * World :=
  let remark :=
    match checkSelectedItems (listElement w) current with
    | (Normal counter, ul) => (Normal (VNumber counter), set_listElement w ul)
    | (Throw e, ul) => (Throw e, set_listElement w ul)
    end in
  match previous with
  | JUndefined => remark
  | JArray prev =>
      match get_length current with
      | Throw e => (Throw e, w)
      | Normal n =>
          if negb (n =? length prev)%nat then remark else (Normal (VBool false), w)
      end
  end.

Section Directive.

Variable randomHex : nat -> string.

(** [onAvailableListUpdated(current, previous)]. *)
Definition onAvailableListUpdated (current previous : binding Item) (w : World)
  : completion JSValue * World :=
  let '(_, ul) := clearItemElements (listElement w) in
  let w := set_listElement w ul in
  match current with
  | JUndefined => (Normal (VBool false), w)
  | JArray cur =>
      if (length cur =? 0)%nat then (Normal (VBool false), w)
      else
        let rebuild :=
          let '(items, ul', n) :=
            attachItemElements randomHex (listElement w) (draws w) cur
              (selected (scope w)) in
          (Normal (VBool (1 <=? length items)%nat), mkWorld (scope w) ul' n) in
        match previous with
        | JUndefined => rebuild
        | JArray prev =>
            if negb (length cur =? length prev)%nat then rebuild
            else (Normal (VBool false), w)
        end
  end.

End Directive.

(** The click listener added to the list element. *)
Definition clickListener (target : EventTarget) (w : World)
  : completion JSValue * World :=
  if negb (String.eqb (nodeName target) "INPUT") then (Normal (VBool false), w)
  else
    match target with
    | TargetINPUT row =>
        if checked (input row) then
          match selected (scope w) with
          | JArray sel =>
              (Normal VUndefined,
               set_scope w (set_selected (scope w) (JArray (push sel (value (input row))))))
          | JUndefined => (Throw TypeError, w)
          end
        else
          match findItemIndex (listElement w) target with
          | Throw e => (Throw e, w)
          | Normal position =>
              match selected (scope w) with
              | JArray sel =>
                  (Normal VUndefined,
                   set_scope w (set_selected (scope w) (JArray (splice1 sel position))))
              | JUndefined => (Throw TypeError, w)
              end
          end
    | _ => (Normal (VBool false), w) (* only a control is named INPUT *)
    end.

(** [link(scope, element)]: falls off its end, hence returns [undefined],
    once the listener and the two watches are in place. *)
Definition link (w : World) : completion JSValue * World :=
  if negb (isArray (selected (scope w))) || negb (isArray (available (scope w)))
  then (Normal (VBool false), w)
  else
    let ul := addEventListener (listElement w) "click" ClickListener in
    let s := watch (scope w) "selected" onSelectedListUpdatedFn false in
    let s := watch s "available" onAvailableListUpdatedFn false in
    (Normal VUndefined, mkWorld s ul (draws w)).

(** The elements of the selection a rebuild marks against: those of the
    array, none when the binding is [undefined]. *)
Definition elements {A} (b : binding A) : list A :=
  match b with
  | JArray xs => xs
  | JUndefined => []
  end.

(** ** Vocabulary of the statements *)

(** What a freshly built row owes to the Item it was built from and to the
    selection it was marked against. *)
Definition renders (selection : list string) (item : Item) (li : HTMLLIElement)
  : Prop :=
  value (input li) = fst (item_fields item) /\
  type (input li) = "checkbox" /\
  labelText li = (nbsp ++ " " ++ snd (item_fields item))%string /\
  (checked (input li) = true <-> In (value (input li)) selection).

(** What one iteration over an array selection does to a row whose control
    is a checkbox. *)
Definition mark (selection : list string) (child : HTMLLIElement) : HTMLLIElement :=
  if (0 <=? indexOf selection (value (input child)))%Z
  then set_input child (set_checked (input child) true)
  else child.

(** Whether [querySelector] finds the control of a row. *)
Definition has_checkbox (child : HTMLLIElement) : bool :=
  String.eqb (type (input child)) "checkbox".

(** The rows as the directive builds them: every control is a checkbox. *)
Definition checkbox_rows (rows : list HTMLLIElement) : Prop :=
  Forall (fun li => type (input li) = "checkbox") rows.

(** What the loop over an array selection leaves: the rows marked one after
    the other, up to the first row without a checkbox, where it stops. *)
Fixpoint marked_prefix (selection : list string) (rows : list HTMLLIElement)
  : list HTMLLIElement :=
  match rows with
  | [] => []
  | child :: rest =>
      if has_checkbox child then mark selection child :: marked_prefix selection rest
      else child :: rest
  end.

(** The flag of a marked row: set when the value is selected, kept
    otherwise. *)
Definition remarked (selection : list string) (old new : HTMLLIElement) : Prop :=
  identifier new = identifier old /\
  labelText new = labelText old /\
  value (input new) = value (input old) /\
  (checked (input new) = true
     <-> checked (input old) = true \/ In (value (input old)) selection).

(** Every flag mirrors membership in the selection. *)
Definition mirrors (selection : list string) (rows : list HTMLLIElement) : Prop :=
  Forall (fun li => checked (input li) = true <-> In (value (input li)) selection)
    rows.

(** The rows a rebuild leaves, in closed form. *)
Definition rebuilt_rows (randomHex : nat -> string) (cur : list Item)
  (selection : list string) (n : nat) : list HTMLLIElement :=
  map (fun p => createItemElement randomHex (fst p) selection (snd p))
    (combine cur (seq n (length cur))).

(** ** Sample worlds *)

(** An identifier supply for the examples: the number of the call, in
    decimal. *)
Definition sample_randomHex (n : nat) : string := index_key n.

Definition sample_row (id v : string) (b : bool) : HTMLLIElement :=
  mkLI id [] (nbsp ++ " " ++ v)%string (mkInput "checkbox" v b).

(** A linked directive showing the catalog [a; b] with both rows checked. *)
Definition sample_world : World :=
  mkWorld
    (mkScope (JArray ["a"; "b"]) (JArray [BareItem "a"; BareItem "b"])
       [("selected", onSelectedListUpdatedFn, false);
        ("available", onAvailableListUpdatedFn, false)])
    (mkUL [sample_row "0" "a" true; sample_row "1" "b" true]
       [("click", ClickListener)])
    2.

(** The same directive before [link] ran, with [selected] left unbound. *)
Definition unbound_world : World :=
  mkWorld (mkScope JUndefined (JArray [BareItem "a"]) []) (mkUL [] []) 0.

(** * The plugin list controller *)

Module PluginList.

(** What the controller asks of its collaborators (the REST client, the view
    frame and the toast service), in the order it asks. *)
Inductive Effect : Type :=
| RestGet (url : string)
| RestPatch (endpoint : string) (enabled : bool)
| SetLoaderSteps (steps : nat)
| IncrementLoader
| ToastSuccess (message : string)
| ToastError (message : string)
| SetTitle (title : string)
| ClearBreadcrumbs
| AddBreadcrumb (href text : string)
| AddAction (text href : string).

(** How a request ends.  The callbacks registered on it with [then], [catch]
    and [finally] run in that order: the first on fulfilment only, the second
    on rejection only, the third either way. *)
Inductive Settlement (A : Type) : Type :=
| Fulfilled (a : A)
| Rejected.

Arguments Fulfilled {A} a.
Arguments Rejected {A}.

(** The element a click on the table lands on; [type] is [undefined]
    ([None]) on elements that have no such property. *)
Record Target : Type := mkTarget {
  nodeName : string;
  type : option string;
  value : string;
  checked : bool
}.

(** An entry of [scope.pluginList]. *)
Record PluginRow : Type := mkRow {
  row_id : string;
  row_enabled : bool;
  row_name : string;
  row_protocols : string;
  row_created_at : string;
  row_objectNames : string
}.

(** The controller's scope and the trace of what it asked for. *)
Record Controller : Type := mkController {
  pluginList : list PluginRow;
  pluginNext_offset : string;
  effects : list Effect
}.

Definition perform (c : Controller) (es : list Effect) : Controller :=
  mkController (pluginList c) (pluginNext_offset c) (effects c ++ es).

(** [Array.prototype.join] on strings. *)
Definition join (separator : string) (xs : list string) : string :=
  String.concat separator xs.

(** [target.type !== 'checkbox']. *)
Definition type_is_not (target : Target) (t : string) : bool :=
  match type target with
  | Some t' => negb (String.eqb t' t)
  | None => true
  end.

Section Controller.

(** The values of a response the controller only hands on, and the helpers
    it imports, none of which is among the sources: [isObject] of
    lib/core-toolkit.js, [urlQuery] of helpers/rest-toolkit.js, [urlOffset]
    of services/rest-provider.js, [epochToDate] of helpers/date-lib.js and
    the view frame's [getConfig]. *)
Variable V : Type.
Variable isObject : V -> bool.
Variable Filters : Type.
Variable urlQuery : option Filters -> string.
Variable urlOffset : V -> string.
Variable epochToDate : Z -> string -> string.
Variable getConfig : string -> string.

(** A plugin object of the Admin API.  Of [protocols] only [Array.isArray] is
    asked: every value that is not an array is [JUndefined] here. *)
Record Plugin : Type := mkPlugin {
  id : string;
  enabled : bool;
  name : string;
  protocols : binding string;
  created_at : Z;
  service : V;
  route : V;
  consumer : V
}.

Record Response : Type := mkResponse {
  next : V;
  data : list Plugin
}.

(** The array [objectNames] built for one plugin. *)
Definition objectNames (plugin : Plugin) : list string :=
  let objectNames := [] in
  let objectNames :=
    if isObject (service plugin) then push objectNames "Service" else objectNames in
  let objectNames :=
    if isObject (route plugin) then push objectNames "Route" else objectNames in
  let objectNames :=
    if isObject (consumer plugin) then push objectNames "Consumer" else objectNames in
  objectNames.

(** The object pushed onto [scope.pluginList] for one plugin. *)
Definition pluginRow (plugin : Plugin) : PluginRow :=
  let objectNames := objectNames plugin in
  mkRow (id plugin) (enabled plugin) (name plugin)
    (match protocols plugin with
     | JArray ps => join ", " ps
     | JUndefined => "None"
     end)
    (epochToDate (created_at plugin) (getConfig "dateFormat"))
    (if (length objectNames =? 0)%nat then "None" else join ", " objectNames).

(** The loop of the fulfilment callback of [fetchPluginList]. *)
Fixpoint fetch_loop (plugins : list Plugin) (pluginList : list PluginRow)
  : list PluginRow :=
  match plugins with
  | [] => pluginList
  | plugin :: rest => fetch_loop rest (push pluginList (pluginRow plugin))
  end.

(** [scope.fetchPluginList(filters = null)], up to the registration of the
    callbacks; it has no [return]. *)
Definition fetchPluginList (filters : option Filters) (c : Controller)
  : JSValue * Controller :=
  (VUndefined,
   perform c [RestGet ("/plugins" ++ urlQuery filters)%string; SetLoaderSteps 1]).

(** What the callbacks of [fetchPluginList] do when its request settles. *)
Definition fetchPluginList_settled (s : Settlement Response) (c : Controller)
  : Controller :=
  match s with
  | Fulfilled response =>
      let c :=
        mkController (fetch_loop (data response) (pluginList c))
          (urlOffset (next response)) (effects c) in
      perform c [IncrementLoader]
  | Rejected =>
      let c := perform c [ToastError "Could not load list of plugins."] in
      perform c [IncrementLoader]
  end.

(** [scope._togglePluginState(event)], up to the registration of the
    callbacks. *)
Definition _togglePluginState (target : Target) (c : Controller)
  : JSValue * Controller :=
  if negb (String.eqb (nodeName target) "INPUT") || type_is_not target "checkbox"
  then (VBool false, c)
  else
    let c := perform c [SetLoaderSteps 1] in
    let endpoint := ("/plugins/" ++ value target)%string in
    let c := perform c [RestPatch endpoint (checked target)] in
    (VBool true, c).

(** What the callbacks of [_togglePluginState] do when its request settles;
    [target] is the control as it is at that moment. *)
Definition _togglePluginState_settled (s : Settlement unit) (target : Target)
  (c : Controller) : Controller :=
  match s with
  | Fulfilled _ =>
      let c :=
        perform c
          [ToastSuccess
             ("Plugin " ++ (if checked target then "enabled." else "disabled."))%string]
      in
      perform c [IncrementLoader]
  | Rejected =>
      let c := perform c [ToastError "Unable to change plugin state."] in
      perform c [IncrementLoader]
  end.

(** [scope._deleteTableRow] is built by [deleteMethodInitiator] of
    helpers/rest-toolkit.js, which is not among the sources. *)
Variable _deleteTableRow : Target -> Controller -> JSValue * Controller.

(** [scope.handleTableClickEvents(event)]. *)
Definition handleTableClickEvents (target : Target) (c : Controller)
  : JSValue * Controller :=
  if String.eqb (nodeName target) "INPUT" && negb (type_is_not target "checkbox")
  then _togglePluginState target c
  else _deleteTableRow target c.

(** The controller once its constructor has run. *)
Definition PluginListController : Controller :=
  let c := mkController [] "" [] in
  let c := perform c [SetTitle "Plugins"] in
  let c := perform c [ClearBreadcrumbs] in
  let c := perform c [AddBreadcrumb "/plugins" "Plugins"] in
  let c := perform c [AddAction "Apply Plugin" "#!/plugins/__create__"] in
  snd (fetchPluginList None c).

End Controller.

(** How often the loader is told of a request, and how often of its end. *)
Definition loader_steps (es : list Effect) : nat :=
  list_sum (map (fun e => match e with SetLoaderSteps n => n | _ => 0 end) es).

Definition loader_increments (es : list Effect) : nat :=
  length (filter (fun e => match e with IncrementLoader => true | _ => false end) es).

(** A stand-in for the absent helpers, for the examples: a value is a
    string or [null], and an object is what is not [null]. *)
Definition sample_isObject (v : option string) : bool :=
  match v with Some _ => true | None => false end.

Definition sample_urlOffset (v : option string) : string :=
  match v with Some s => s | None => "" end.

Definition sample_urlQuery (filters : option string) : string :=
  match filters with Some s => ("?" ++ s)%string | None => "" end.

Definition sample_epochToDate (epoch : Z) (format : string) : string := format.

Definition sample_getConfig (key : string) : string := key.

Definition sample_plugin : Plugin (option string) :=
  mkPlugin (option string) "p1" true "key-auth" (JArray []) 0%Z
    (Some "s1") None (Some "c1").

Definition sample_checkbox : Target := mkTarget "INPUT" (Some "checkbox") "p1" false.

Definition sample_bin_icon : Target := mkTarget "SPAN" None "" false.

End PluginList.

(** * Properties *)

(** ** Arrays *)

Lemma indexOf_from_found xs x i :
  (0 <= i)%Z -> ((0 <=? indexOf_from xs x i)%Z = true <-> In x xs).
Proof.
  revert i; induction xs as [|y ys IH]; intros i Hi; simpl.
  - split; [discriminate | tauto].
  - destruct (String.eqb_spec y x) as [->|Hne].
    + split; [intros _; left; reflexivity | intros _; apply Z.leb_le; exact Hi].
    + rewrite IH by lia. split; [tauto | intros [H|H]; [contradiction | exact H]].
Qed.

Lemma indexOf_found xs x : (0 <=? indexOf xs x)%Z = true <-> In x xs.
Proof. unfold indexOf. apply indexOf_from_found. lia. Qed.

Lemma push_length {A} (xs : list A) x : length (push xs x) = S (length xs).
Proof. unfold push. rewrite length_app. simpl. lia. Qed.

(** ** The teardown loop *)

Lemma clear_loop_empties rows : clear_loop rows = [].
Proof.
  funelim (clear_loop rows).
  - reflexivity.
  - assumption.
Qed.

Lemma clearItemElements_empties ul :
  clearItemElements ul = (0%Z, set_children ul []).
Proof. unfold clearItemElements. rewrite clear_loop_empties. reflexivity. Qed.

(** ** The rebuild loop *)

Lemma createItemElement_renders randomHex item selection n :
  renders selection item (createItemElement randomHex item selection n).
Proof.
  unfold renders, createItemElement.
  destruct (item_fields item) as [nodeValue displayText]; simpl.
  destruct (0 <=? indexOf selection nodeValue)%Z eqn:E; simpl;
    repeat split; try reflexivity; intro H.
  - apply indexOf_found; exact E.
  - discriminate.
  - apply indexOf_found in H. congruence.
Qed.

Lemma attach_loop_spec randomHex available :
  forall rows selection n,
  exists added,
    attach_loop randomHex rows available selection n
      = (rows ++ added, n + length available) /\
    Forall2 (renders selection) available added.
Proof.
  induction available as [|item rest IH]; intros rows selection n; simpl.
  - exists []. rewrite app_nil_r, Nat.add_0_r. split; [reflexivity | constructor].
  - destruct (IH (rows ++ [createItemElement randomHex item selection n])
                selection (S n)) as (added & Heq & Hall).
    exists (createItemElement randomHex item selection n :: added).
    rewrite Heq, <- app_assoc. simpl. split.
    + f_equal. lia.
    + constructor; [apply createItemElement_renders | exact Hall].
Qed.

(** ** The re-marking loop *)

Lemma check_loop_array selection todo :
  forall done,
    check_loop done todo (JArray selection)
      = (if forallb has_checkbox todo then Normal tt else Throw TypeError,
         done ++ marked_prefix selection todo).
Proof.
  induction todo as [|child rest IH]; intro done; simpl.
  - rewrite app_nil_r. reflexivity.
  - unfold querySelector_checkbox, has_checkbox.
    destruct (String.eqb (type (input child)) "checkbox") eqn:E; simpl.
    + rewrite IH, <- app_assoc. reflexivity.
    + reflexivity.
Qed.

Lemma checkbox_rows_forallb rows :
  checkbox_rows rows -> forallb has_checkbox rows = true.
Proof.
  induction 1 as [|child rest Hc _ IH]; simpl; [reflexivity|].
  unfold has_checkbox at 1. rewrite Hc, IH. reflexivity.
Qed.

Lemma marked_prefix_checkbox_rows selection rows :
  checkbox_rows rows -> marked_prefix selection rows = map (mark selection) rows.
Proof.
  induction 1 as [|child rest Hc _ IH]; simpl; [reflexivity|].
  unfold has_checkbox. rewrite Hc, IH. reflexivity.
Qed.

Lemma check_loop_undefined done todo :
  snd (check_loop done todo JUndefined) = done ++ todo.
Proof. destruct todo; simpl; [rewrite app_nil_r|]; reflexivity. Qed.

(** After [checkSelectedItems], whatever it completes with, the rows are the
    old rows, each either marked or left alone. *)
Lemma checkSelectedItems_rows ul selected :
  children (snd (checkSelectedItems ul selected))
    = match selected with
      | JArray selection => marked_prefix selection (children ul)
      | JUndefined => children ul
      end.
Proof.
  unfold checkSelectedItems. destruct selected as [selection|].
  - rewrite check_loop_array.
    destruct (forallb has_checkbox (children ul)); reflexivity.
  - pose proof (check_loop_undefined [] (children ul)) as H.
    destruct (check_loop [] (children ul) JUndefined) as [[u|e] rows];
      simpl in *; exact H.
Qed.

Lemma checkSelectedItems_array_any ul selection :
  checkSelectedItems ul (JArray selection)
    = (if forallb has_checkbox (children ul) then Normal 0%Z else Throw TypeError,
       set_children ul (marked_prefix selection (children ul))).
Proof.
  unfold checkSelectedItems. rewrite check_loop_array.
  destruct (forallb has_checkbox (children ul)); reflexivity.
Qed.

Lemma checkSelectedItems_array ul selection :
  checkbox_rows (children ul) ->
  checkSelectedItems ul (JArray selection)
    = (Normal 0%Z, set_children ul (map (mark selection) (children ul))).
Proof.
  intro Hrows. rewrite checkSelectedItems_array_any.
  rewrite (checkbox_rows_forallb _ Hrows), (marked_prefix_checkbox_rows _ _ Hrows).
  reflexivity.
Qed.

Lemma mark_remarked selection child : remarked selection child (mark selection child).
Proof.
  unfold remarked, mark.
  destruct (0 <=? indexOf selection (value (input child)))%Z eqn:E; simpl;
    repeat split; try reflexivity.
  - intros _. right. apply indexOf_found. exact E.
  - intro H; left; exact H.
  - intros [H|H]; [exact H|]. apply indexOf_found in H. congruence.
Qed.

Lemma mark_keeps_checked selection child :
  checked (input child) = true -> checked (input (mark selection child)) = true.
Proof.
  unfold mark.
  destruct (0 <=? indexOf selection (value (input child)))%Z; simpl; auto.
Qed.

Lemma Forall2_map_r_self {A} (R : A -> A -> Prop) (f : A -> A) (l : list A) :
  (forall x, R x (f x)) -> Forall2 R l (map f l).
Proof. intro H. induction l; simpl; constructor; auto. Qed.

Lemma Forall2_diag {A} (R : A -> A -> Prop) (l : list A) :
  (forall x, R x x) -> Forall2 R l l.
Proof. intro H. induction l; constructor; auto. Qed.

Lemma Forall2_marked_prefix (R : HTMLLIElement -> HTMLLIElement -> Prop)
  selection rows :
  (forall x, R x x) -> (forall x, R x (mark selection x)) ->
  Forall2 R rows (marked_prefix selection rows).
Proof.
  intros Hsame Hmark. induction rows as [|child rest IH]; simpl.
  - constructor.
  - destruct (has_checkbox child).
    + constructor; [apply Hmark | exact IH].
    + apply Forall2_diag. exact Hsame.
Qed.

(** ** The catalog watch *)

(** C1, as amended.  When the previous catalog is an array of the same
    length as the current one, the handler has torn the list down and skips
    the rebuild: the list holds no row afterwards, nothing else changes, and
    the handler returns [false]. *)
Theorem catalog_equal_length_tears_down randomHex cur prev w :
  length cur = length prev ->
  onAvailableListUpdated randomHex (JArray cur) (JArray prev) w
    = (Normal (VBool false), set_listElement w (set_children (listElement w) [])).
Proof.
  intro Hlen. unfold onAvailableListUpdated.
  rewrite clearItemElements_empties.
  destruct (length cur =? 0)%nat; [reflexivity|].
  rewrite Hlen, Nat.eqb_refl. reflexivity.
Qed.

Lemma catalog_equal_length_tears_down_witness :
  length [BareItem "b"; BareItem "c"] = length [BareItem "a"; BareItem "b"] /\
  onAvailableListUpdated sample_randomHex
    (JArray [BareItem "b"; BareItem "c"]) (JArray [BareItem "a"; BareItem "b"])
    sample_world
    = (Normal (VBool false),
       set_listElement sample_world (set_children (listElement sample_world) [])).
Proof.
  split; [reflexivity|].
  apply (catalog_equal_length_tears_down sample_randomHex
           [BareItem "b"; BareItem "c"] [BareItem "a"; BareItem "b"] sample_world).
  reflexivity.
Defined.

(** C1, as stated, fails: an equal-length notification with an array as
    previous snapshot does not leave the rows untouched; two rows were there
    before it and none is after. *)
Lemma catalog_equal_length_counterexample :
  let current := JArray [BareItem "b"; BareItem "c"] in
  let previous := JArray [BareItem "a"; BareItem "b"] in
  let after :=
    snd (onAvailableListUpdated sample_randomHex current previous sample_world) in
  isArray previous = true /\
  length (elements current) = length (elements previous) /\
  length (children (listElement sample_world)) = 2 /\
  length (children (listElement after)) = 0 /\
  children (listElement after) <> children (listElement sample_world).
Proof. repeat split; try reflexivity. discriminate. Qed.

(** C4.  When the current catalog is a non-empty array and the previous one
    is absent or of another length, the list afterwards holds exactly one row
    per Item, in catalog order; each row carries its Item's value and display
    text and is checked exactly when that value occurs in [scope.selected] at
    that moment.  The handler returns [true]. *)
Theorem catalog_length_change_rebuilds randomHex cur previous w :
  cur <> [] ->
  (previous = JUndefined \/
   exists prev, previous = JArray prev /\ length cur <> length prev) ->
  exists rows,
    onAvailableListUpdated randomHex (JArray cur) previous w
      = (Normal (VBool true),
         mkWorld (scope w) (set_children (listElement w) rows)
           (draws w + length cur)) /\
    length rows = length cur /\
    Forall2 (renders (elements (selected (scope w)))) cur rows.
Proof.
  intros Hne Hprev.
  destruct (attach_loop_spec randomHex cur []
              (elements (selected (scope w))) (draws w))
    as (rows & Hloop & Hall).
  exists rows. split; [|split].
  - unfold onAvailableListUpdated. rewrite clearItemElements_empties.
    assert (Hnz : (length cur =? 0)%nat = false).
    { apply Nat.eqb_neq. destruct cur; [contradiction | discriminate]. }
    rewrite Hnz.
    assert (Hrebuild :
      (let '(items, ul', n) :=
         attachItemElements randomHex
           (listElement (set_listElement w (set_children (listElement w) [])))
           (draws (set_listElement w (set_children (listElement w) []))) cur
           (selected (scope (set_listElement w (set_children (listElement w) []))))
       in (Normal (VBool (1 <=? length items)%nat),
           mkWorld (scope (set_listElement w (set_children (listElement w) [])))
             ul' n))
      = (Normal (VBool true),
         mkWorld (scope w) (set_children (listElement w) rows)
           (draws w + length cur))).
    { unfold attachItemElements; simpl.
      replace (match selected (scope w) with JArray xs => xs | JUndefined => [] end)
        with (elements (selected (scope w))) by reflexivity.
      rewrite Hloop. cbv beta iota.
      destruct cur; [contradiction | reflexivity]. }
    destruct Hprev as [-> | (prev & -> & Hlen)].
    + exact Hrebuild.
    + apply Nat.eqb_neq in Hlen. rewrite Hlen. simpl. exact Hrebuild.
  - symmetry. eapply Forall2_length. exact Hall.
  - exact Hall.
Qed.

Lemma catalog_length_change_rebuilds_witness :
  exists rows,
    onAvailableListUpdated sample_randomHex
      (JArray [PairItem "b" "B"; BareItem "c"; BareItem "a"])
      (JArray [BareItem "a"; BareItem "b"]) sample_world
      = (Normal (VBool true),
         mkWorld (scope sample_world)
           (set_children (listElement sample_world) rows)
           (draws sample_world + 3)) /\
    length rows = 3 /\
    Forall2 (renders ["a"; "b"])
      [PairItem "b" "B"; BareItem "c"; BareItem "a"] rows.
Proof.
  apply (catalog_length_change_rebuilds sample_randomHex
           [PairItem "b" "B"; BareItem "c"; BareItem "a"]
           (JArray [BareItem "a"; BareItem "b"]) sample_world).
  - discriminate.
  - right. exists [BareItem "a"; BareItem "b"]. split; [reflexivity | discriminate].
Defined.

(** C8.  When the current catalog is empty or is not an array, the handler
    leaves the list without any row, creates none (the identifier supply is
    not drawn from) and returns [false]. *)
Theorem catalog_empty_or_not_array_noop randomHex current previous w :
  current = JUndefined \/ current = JArray [] ->
  onAvailableListUpdated randomHex current previous w
    = (Normal (VBool false), set_listElement w (set_children (listElement w) [])).
Proof.
  intros [-> | ->]; unfold onAvailableListUpdated;
    rewrite clearItemElements_empties; reflexivity.
Qed.

Lemma catalog_empty_or_not_array_noop_witness :
  (@JUndefined Item = JUndefined \/ @JUndefined Item = JArray []) /\
  onAvailableListUpdated sample_randomHex JUndefined
    (JArray [BareItem "a"; BareItem "b"]) sample_world
    = (Normal (VBool false),
       set_listElement sample_world (set_children (listElement sample_world) [])).
Proof.
  split; [left; reflexivity|].
  apply (catalog_empty_or_not_array_noop sample_randomHex JUndefined
           (JArray [BareItem "a"; BareItem "b"]) sample_world).
  left; reflexivity.
Defined.

(** C9.  Clearing is idempotent: on a list without rows it changes nothing
    and returns normally, and clearing a second time gives what clearing once
    gave, a list without rows. *)
Theorem clearItemElements_idempotent ul :
  clearItemElements (set_children ul []) = (0%Z, set_children ul []) /\
  clearItemElements (snd (clearItemElements ul)) = clearItemElements ul /\
  children (snd (clearItemElements ul)) = [].
Proof.
  rewrite !clearItemElements_empties. simpl.
  split; [|split]; reflexivity.
Qed.

(** ** The selection watch *)

(** The rows after the selection handler, whatever it completes with: the
    old rows, left as they were or marked against an array selection as far
    as the loop got. *)
Lemma onSelectedListUpdated_rows current previous w :
  let after := children (listElement (snd (onSelectedListUpdated current previous w))) in
  after = children (listElement w) \/
  exists selection, current = JArray selection /\
    after = marked_prefix selection (children (listElement w)).
Proof.
  unfold onSelectedListUpdated.
  pose proof (checkSelectedItems_rows (listElement w) current) as Hrows.
  destruct (checkSelectedItems (listElement w) current) as [[counter|e] ul];
    simpl in Hrows;
    destruct previous as [prev|]; destruct current as [cur|]; simpl;
    try (destruct (negb (length cur =? length prev)%nat); simpl);
    solve [ left; reflexivity
          | left; exact Hrows
          | right; exists cur; split; [reflexivity | exact Hrows] ].
Qed.

(** When the pass runs on an array selection, the world it leaves, however
    it completes. *)
Lemma onSelectedListUpdated_runs cur previous w :
  (previous = JUndefined \/
   exists prev, previous = JArray prev /\ length cur <> length prev) ->
  snd (onSelectedListUpdated (JArray cur) previous w)
    = set_listElement w
        (set_children (listElement w)
           (marked_prefix cur (children (listElement w)))).
Proof.
  intros [-> | (prev & -> & Hlen)]; unfold onSelectedListUpdated;
    rewrite checkSelectedItems_array_any; simpl.
  - destruct (forallb has_checkbox (children (listElement w))); reflexivity.
  - apply Nat.eqb_neq in Hlen. rewrite Hlen. simpl.
    destruct (forallb has_checkbox (children (listElement w))); reflexivity.
Qed.

(** When the pass runs on an array selection over rows that all hold a
    checkbox, it completes normally with the counter, 0, and marks every
    row. *)
Lemma onSelectedListUpdated_remarks cur previous w :
  checkbox_rows (children (listElement w)) ->
  (previous = JUndefined \/
   exists prev, previous = JArray prev /\ length cur <> length prev) ->
  onSelectedListUpdated (JArray cur) previous w
    = (Normal (VNumber 0),
       set_listElement w
         (set_children (listElement w) (map (mark cur) (children (listElement w))))).
Proof.
  intros Hrows [-> | (prev & -> & Hlen)]; unfold onSelectedListUpdated;
    rewrite (checkSelectedItems_array _ _ Hrows); simpl.
  - reflexivity.
  - apply Nat.eqb_neq in Hlen. rewrite Hlen. reflexivity.
Qed.

(** C2, as amended.  On rendered rows, which all hold a checkbox control as
    the directive builds them: when the previous selection is absent or of
    another length, the pass completes and leaves the same rows in the same
    order, each row's flag set if its value is in the new selection and kept
    as it was if not: a row is checked afterwards exactly when it was checked
    before or its value is selected. *)
Theorem selection_length_change_remarks cur previous w :
  checkbox_rows (children (listElement w)) ->
  (previous = JUndefined \/
   exists prev, previous = JArray prev /\ length cur <> length prev) ->
  exists rows,
    onSelectedListUpdated (JArray cur) previous w
      = (Normal (VNumber 0), set_listElement w (set_children (listElement w) rows)) /\
    Forall2 (remarked cur) (children (listElement w)) rows.
Proof.
  intros Hrows Hprev. exists (map (mark cur) (children (listElement w))). split.
  - apply onSelectedListUpdated_remarks; assumption.
  - apply Forall2_map_r_self. apply mark_remarked.
Qed.

Lemma selection_length_change_remarks_witness :
  checkbox_rows (children (listElement sample_world)) /\
  exists rows,
    onSelectedListUpdated (JArray ["b"]) (JArray ["a"; "b"]) sample_world
      = (Normal (VNumber 0),
         set_listElement sample_world
           (set_children (listElement sample_world) rows)) /\
    Forall2 (remarked ["b"]) (children (listElement sample_world)) rows.
Proof.
  assert (Hrows : checkbox_rows (children (listElement sample_world))).
  { unfold checkbox_rows; simpl. repeat constructor. }
  split; [exact Hrows|].
  apply (selection_length_change_remarks ["b"] (JArray ["a"; "b"]) sample_world).
  - exact Hrows.
  - right. exists ["a"; "b"]. split; [reflexivity | discriminate].
Defined.

(** C2, as stated, fails: the selection shrinks from [a; b] to [b], the pass
    runs, and the row of [a] is still checked although [a] is no longer
    selected. *)
Lemma selection_length_change_counterexample :
  let current := ["b"] in
  let previous := ["a"; "b"] in
  let after :=
    snd (onSelectedListUpdated (JArray current) (JArray previous) sample_world) in
  length current <> length previous /\
  nth_error (children (listElement after)) 0 = Some (sample_row "0" "a" true) /\
  ~ In "a" current /\
  ~ mirrors current (children (listElement after)).
Proof.
  assert (Hnot : ~ In "a" ["b"]).
  { intros [H|[]]. discriminate H. }
  split; [discriminate|]. split; [reflexivity|]. split; [exact Hnot|].
  intro Hm. apply Forall_inv in Hm. simpl in Hm.
  apply Hnot. apply Hm. reflexivity.
Qed.

(** C10.  The pass never unchecks: for every notification, whatever the two
    snapshots are and however the handler completes, the rows afterwards
    are as many as before and every row that was checked is still checked. *)
Theorem selection_pass_keeps_checked current previous w :
  Forall2 (fun old new => checked (input old) = true -> checked (input new) = true)
    (children (listElement w))
    (children (listElement (snd (onSelectedListUpdated current previous w)))).
Proof.
  destruct (onSelectedListUpdated_rows current previous w)
    as [-> | (selection & _ & ->)].
  - apply Forall2_diag. auto.
  - apply Forall2_marked_prefix; [auto|]. intro child. apply mark_keeps_checked.
Qed.

(** ** The click listener *)

(** C5.  A click that leaves a control checked pushes the control's value:
    the selection afterwards is the old selection, unchanged, followed by
    that value; nothing else in the world changes and nothing is thrown. *)
Theorem check_appends_value row sel w :
  selected (scope w) = JArray sel ->
  checked (input row) = true ->
  clickListener (TargetINPUT row) w
    = (Normal VUndefined,
       set_scope w (set_selected (scope w) (JArray (sel ++ [value (input row)])))).
Proof.
  intros Hsel Hchecked. unfold clickListener. simpl.
  rewrite Hchecked, Hsel. reflexivity.
Qed.

Lemma check_appends_value_witness :
  selected (scope sample_world) = JArray ["a"; "b"] /\
  checked (input (sample_row "1" "b" true)) = true /\
  clickListener (TargetINPUT (sample_row "1" "b" true)) sample_world
    = (Normal VUndefined,
       set_scope sample_world
         (set_selected (scope sample_world) (JArray (["a"; "b"] ++ ["b"])))).
Proof.
  split; [reflexivity|]. split; [reflexivity|].
  apply (check_appends_value (sample_row "1" "b" true) ["a"; "b"] sample_world);
    reflexivity.
Defined.

(** C6.  A click whose target is not a control is ignored: the listener
    returns [false] without throwing and the world, the selection included,
    is as it was. *)
Theorem click_off_control_ignored target w :
  (forall row, target <> TargetINPUT row) ->
  clickListener target w = (Normal (VBool false), w).
Proof.
  intro Hnot. destruct target as [|row|row|row]; try reflexivity.
  exfalso. apply (Hnot row). reflexivity.
Qed.

Lemma click_off_control_ignored_witness :
  (forall row, TargetLABEL (sample_row "0" "a" true) <> TargetINPUT row) /\
  clickListener (TargetLABEL (sample_row "0" "a" true)) sample_world
    = (Normal (VBool false), sample_world).
Proof.
  split; [discriminate|].
  apply (click_off_control_ignored (TargetLABEL (sample_row "0" "a" true))
           sample_world).
  discriminate.
Defined.

(** The loop throws at its first key, and there always is one. *)
Lemma findItemIndex_loop_throws keys identifier index :
  keys <> [] -> findItemIndex_loop keys identifier index = Throw TypeError.
Proof. destruct keys; [contradiction | reflexivity]. Qed.

Lemma for_in_keys_nonempty rows : for_in_keys rows <> [].
Proof.
  unfold for_in_keys. intro H. apply app_eq_nil in H. destruct H; discriminate.
Qed.

Lemma findItemIndex_throws ul target : findItemIndex ul target = Throw TypeError.
Proof.
  unfold findItemIndex. destruct (closest_li target); [|reflexivity].
  apply findItemIndex_loop_throws, for_in_keys_nonempty.
Qed.

(** A click that leaves a control unchecked never reaches [splice]. *)
Lemma uncheck_throws row w :
  checked (input row) = false ->
  clickListener (TargetINPUT row) w = (Throw TypeError, w).
Proof.
  intro Hoff. unfold clickListener. simpl. rewrite Hoff.
  rewrite findItemIndex_throws. reflexivity.
Qed.

(** C3, on the code.  With the rows of [a] and [b] shown and [a; b]
    selected, unchecking the second row throws a TypeError inside
    [findItemIndex] and removes nothing, where the entry at position 1 was to
    be removed. *)
Theorem uncheck_second_row_removes_nothing :
  clickListener (TargetINPUT (sample_row "1" "b" false)) sample_world
    = (Throw TypeError, sample_world) /\
  selected (scope (snd (clickListener (TargetINPUT (sample_row "1" "b" false))
                          sample_world)))
    = JArray ["a"; "b"] /\
  splice1 ["a"; "b"] 1 = ["a"].
Proof.
  rewrite uncheck_throws by reflexivity. repeat split.
Qed.

(** ** link *)

(** C7.  When [selected] or [available] is not an array, [link] returns
    [false] and leaves the world as it found it: no listener is added, no
    watch is installed, no row is rendered. *)
Theorem link_refuses_malformed_binding w :
  isArray (selected (scope w)) = false \/ isArray (available (scope w)) = false ->
  link w = (Normal (VBool false), w) /\
  eventListeners (listElement (snd (link w))) = eventListeners (listElement w) /\
  watchers (scope (snd (link w))) = watchers (scope w) /\
  children (listElement (snd (link w))) = children (listElement w).
Proof.
  intro Hbad.
  assert (Hlink : link w = (Normal (VBool false), w)).
  { unfold link. destruct Hbad as [H|H]; rewrite H; simpl.
    - reflexivity.
    - rewrite orb_true_r. reflexivity. }
  rewrite Hlink. repeat split.
Qed.

Lemma link_refuses_malformed_binding_witness :
  (isArray (selected (scope unbound_world)) = false \/
   isArray (available (scope unbound_world)) = false) /\
  link unbound_world = (Normal (VBool false), unbound_world).
Proof.
  split; [left; reflexivity|].
  apply (link_refuses_malformed_binding unbound_world).
  left; reflexivity.
Defined.

(** With both bindings arrays, [link] does install its click listener and
    its two watches, and renders nothing by itself. *)
Lemma link_installs w :
  isArray (selected (scope w)) = true ->
  isArray (available (scope w)) = true ->
  link w
    = (Normal VUndefined,
       mkWorld
         (mkScope (selected (scope w)) (available (scope w))
            (watchers (scope w)
               ++ [("selected", onSelectedListUpdatedFn, false)]
               ++ [("available", onAvailableListUpdatedFn, false)]))
         (mkUL (children (listElement w))
            (eventListeners (listElement w) ++ [("click", ClickListener)]))
         (draws w)).
Proof.
  intros Hs Ha. unfold link. rewrite Hs, Ha. simpl.
  unfold watch; simpl. rewrite <- app_assoc. reflexivity.
Qed.

(** ** A worked run *)

(** The catalog [{a, A}; {b, B}] arrives with no previous snapshot while [b]
    is selected: two rows, [a] unchecked and [b] checked. *)
Example mount_two_rows :
  onAvailableListUpdated sample_randomHex
    (JArray [PairItem "a" "A"; PairItem "b" "B"]) JUndefined
    (mkWorld (mkScope (JArray ["b"]) (JArray [PairItem "a" "A"; PairItem "b" "B"]) [])
       (mkUL [] []) 0)
  = (Normal (VBool true),
     mkWorld (mkScope (JArray ["b"]) (JArray [PairItem "a" "A"; PairItem "b" "B"]) [])
       (mkUL [mkLI "0" [] (nbsp ++ " A")%string (mkInput "checkbox" "a" false);
              mkLI "1" [] (nbsp ++ " B")%string (mkInput "checkbox" "b" true)] [])
       2).
Proof. reflexivity. Qed.

(** The keys the loop of [findItemIndex] walks over for two rows. *)
Example for_in_keys_two_rows :
  for_in_keys (children (listElement sample_world))
  = ["0"; "1"; "length"; "item"; "namedItem"].
Proof. reflexivity. Qed.

(** Checking [a] while [b] alone is selected gives the selection [b; a]. *)
Example check_a_after_b :
  selected (scope (snd (clickListener (TargetINPUT (sample_row "0" "a" true))
    (mkWorld (mkScope (JArray ["b"]) (JArray [BareItem "a"; BareItem "b"]) [])
       (mkUL [sample_row "0" "a" true; sample_row "1" "b" true] []) 2))))
  = JArray ["b"; "a"].
Proof. reflexivity. Qed.

(** * Further properties of the directive *)

(** ** Helpers *)

Lemma attach_loop_closed randomHex available :
  forall rows selection n,
    attach_loop randomHex rows available selection n
      = (rows ++ map (fun p => createItemElement randomHex (fst p) selection (snd p))
                   (combine available (seq n (length available))),
         n + length available).
Proof.
  induction available as [|item rest IH]; intros rows selection n; simpl.
  - rewrite app_nil_r, Nat.add_0_r. reflexivity.
  - rewrite IH, <- app_assoc. simpl. f_equal. lia.
Qed.

Lemma createItemElement_identifier randomHex item selection n :
  identifier (createItemElement randomHex item selection n) = randomHex n /\
  dataset (createItemElement randomHex item selection n) = [].
Proof.
  unfold createItemElement. destruct (item_fields item). split; reflexivity.
Qed.

Lemma map_combine_seq_identifier randomHex selection available :
  forall n,
    map identifier
      (map (fun p => createItemElement randomHex (fst p) selection (snd p))
         (combine available (seq n (length available))))
    = map randomHex (seq n (length available)).
Proof.
  induction available as [|item rest IH]; intro n; simpl; [reflexivity|].
  rewrite IH. f_equal. apply createItemElement_identifier.
Qed.

Lemma onAvailableListUpdated_rebuild randomHex cur previous w :
  cur <> [] ->
  (previous = JUndefined \/
   exists prev, previous = JArray prev /\ length cur <> length prev) ->
  onAvailableListUpdated randomHex (JArray cur) previous w
    = (Normal (VBool true),
       mkWorld (scope w)
         (set_children (listElement w)
            (rebuilt_rows randomHex cur (elements (selected (scope w))) (draws w)))
         (draws w + length cur)).
Proof.
  intros Hne Hprev. unfold onAvailableListUpdated.
  rewrite clearItemElements_empties.
  assert (Hnz : (length cur =? 0)%nat = false).
  { apply Nat.eqb_neq. destruct cur; [contradiction | discriminate]. }
  rewrite Hnz.
  assert (Hrun : match previous with
                 | JUndefined => true
                 | JArray prev => negb (length cur =? length prev)%nat
                 end = true).
  { destruct Hprev as [-> | (prev & -> & Hlen)]; [reflexivity|].
    apply Nat.eqb_neq in Hlen. rewrite Hlen. reflexivity. }
  unfold attachItemElements; simpl.
  replace (match selected (scope w) with JArray xs => xs | JUndefined => [] end)
    with (elements (selected (scope w))) by reflexivity.
  rewrite attach_loop_closed. cbv beta iota. simpl app.
  fold (rebuilt_rows randomHex cur (elements (selected (scope w))) (draws w)).
  destruct previous as [prev|].
  - rewrite Hrun. destruct cur; [contradiction | reflexivity].
  - destruct cur; [contradiction | reflexivity].
Qed.

Lemma rebuilt_rows_render randomHex cur selection n :
  Forall2 (renders selection) cur (rebuilt_rows randomHex cur selection n).
Proof.
  unfold rebuilt_rows. revert n.
  induction cur as [|item rest IH]; intro n; simpl; constructor.
  - apply createItemElement_renders.
  - apply IH.
Qed.

Lemma rebuilt_rows_mirror randomHex cur selection n :
  mirrors selection (rebuilt_rows randomHex cur selection n).
Proof.
  unfold mirrors.
  pose proof (rebuilt_rows_render randomHex cur selection n) as H.
  induction H as [|item li cur' rows' Hr _ IH]; constructor.
  - destruct Hr as (_ & _ & _ & Hc). exact Hc.
  - exact IH.
Qed.

Lemma mark_idempotent selection child :
  mark selection (mark selection child) = mark selection child.
Proof.
  unfold mark.
  destruct (0 <=? indexOf selection (value (input child)))%Z eqn:E; simpl.
  - rewrite E. reflexivity.
  - rewrite E. reflexivity.
Qed.

Lemma mark_same_row selection child :
  identifier (mark selection child) = identifier child /\
  dataset (mark selection child) = dataset child /\
  labelText (mark selection child) = labelText child /\
  type (input (mark selection child)) = type (input child) /\
  value (input (mark selection child)) = value (input child).
Proof.
  unfold mark.
  destruct (0 <=? indexOf selection (value (input child)))%Z; simpl;
    repeat split; reflexivity.
Qed.

Lemma marked_prefix_idempotent selection rows :
  marked_prefix selection (marked_prefix selection rows)
    = marked_prefix selection rows.
Proof.
  induction rows as [|child rest IH]; simpl; [reflexivity|].
  destruct (has_checkbox child) eqn:E; simpl.
  - assert (E' : has_checkbox (mark selection child) = true).
    { unfold has_checkbox in *.
      destruct (mark_same_row selection child) as (_ & _ & _ & -> & _). exact E. }
    rewrite E', mark_idempotent, IH. reflexivity.
  - rewrite E. reflexivity.
Qed.

Lemma mark_mirrors_growth old new rows :
  mirrors old rows -> incl old new -> mirrors new (map (mark new) rows).
Proof.
  unfold mirrors. intros Hm Hincl.
  induction Hm as [|child rest Hc _ IH]; simpl; constructor; [|exact IH].
  destruct (mark_remarked new child) as (_ & _ & Hv & Hflag).
  rewrite Hv, Hflag. split.
  - intros [H|H]; [apply Hincl, Hc, H | exact H].
  - intro H; right; exact H.
Qed.

Lemma checkSelectedItems_frame ul selected :
  eventListeners (snd (checkSelectedItems ul selected)) = eventListeners ul.
Proof.
  unfold checkSelectedItems.
  destruct (check_loop [] (children ul) selected) as [[u|e] rows]; reflexivity.
Qed.

Lemma onSelectedListUpdated_frame current previous w :
  let after := snd (onSelectedListUpdated current previous w) in
  scope after = scope w /\
  draws after = draws w /\
  eventListeners (listElement after) = eventListeners (listElement w).
Proof.
  unfold onSelectedListUpdated.
  pose proof (checkSelectedItems_frame (listElement w) current) as Hframe.
  destruct (checkSelectedItems (listElement w) current) as [[counter|e] ul];
    simpl in Hframe;
    destruct previous as [prev|]; destruct current as [cur|]; simpl;
    try (destruct (negb (length cur =? length prev)%nat); simpl);
    repeat split; try reflexivity; exact Hframe.
Qed.

(** ** findItemIndex and the click listener *)

(** X1.  [findItemIndex] never returns an index: whatever the list and the
    target are, it does not complete normally. *)
Theorem findItemIndex_never_returns ul target index :
  findItemIndex ul target <> Normal index.
Proof. rewrite findItemIndex_throws. discriminate. Qed.

(** X2.  The click listener never removes an entry and never touches the
    list: after any click the rows, the listeners, the watches, the catalog
    and the identifier supply are as before, and the selection is either as
    before or the old array followed by one more value. *)
Theorem click_never_removes target w :
  let after := snd (clickListener target w) in
  listElement after = listElement w /\
  draws after = draws w /\
  available (scope after) = available (scope w) /\
  watchers (scope after) = watchers (scope w) /\
  (selected (scope after) = selected (scope w) \/
   exists sel v, selected (scope w) = JArray sel /\
                 selected (scope after) = JArray (sel ++ [v])).
Proof.
  destruct target as [|row|row|row]; simpl;
    try (repeat split; try reflexivity; left; reflexivity).
  unfold clickListener; simpl.
  destruct (checked (input row)).
  - destruct (selected (scope w)) as [sel|] eqn:Hsel; simpl.
    + repeat split; try reflexivity.
      right. exists sel, (value (input row)). split; reflexivity.
    + repeat split; try reflexivity. left; exact Hsel.
  - rewrite findItemIndex_throws. simpl.
    repeat split; try reflexivity. left; reflexivity.
Qed.

(** X3.  No duplicate check is made: two clicks that each leave the same
    control checked push its value twice. *)
Theorem check_twice_appends_twice row sel w :
  selected (scope w) = JArray sel ->
  checked (input row) = true ->
  selected (scope (snd (clickListener (TargetINPUT row)
                          (snd (clickListener (TargetINPUT row) w)))))
    = JArray (sel ++ [value (input row); value (input row)]).
Proof.
  intros Hsel Hchecked. unfold clickListener. simpl.
  rewrite Hchecked, Hsel. simpl. unfold push.
  rewrite <- app_assoc. reflexivity.
Qed.

Lemma check_twice_appends_twice_witness :
  selected (scope sample_world) = JArray ["a"; "b"] /\
  checked (input (sample_row "0" "a" true)) = true /\
  selected (scope (snd (clickListener (TargetINPUT (sample_row "0" "a" true))
                          (snd (clickListener (TargetINPUT (sample_row "0" "a" true))
                                  sample_world)))))
    = JArray (["a"; "b"] ++ ["a"; "a"]).
Proof.
  split; [reflexivity|]. split; [reflexivity|].
  apply (check_twice_appends_twice (sample_row "0" "a" true) ["a"; "b"]
           sample_world); reflexivity.
Defined.

(** X4.  When [scope.selected] has become [undefined] since [link], a click
    that leaves a control checked throws a TypeError and changes nothing. *)
Theorem check_on_unbound_selection_throws row w :
  selected (scope w) = JUndefined ->
  checked (input row) = true ->
  clickListener (TargetINPUT row) w = (Throw TypeError, w).
Proof.
  intros Hsel Hchecked. unfold clickListener. simpl.
  rewrite Hchecked, Hsel. reflexivity.
Qed.

Lemma check_on_unbound_selection_throws_witness :
  selected (scope unbound_world) = JUndefined /\
  checked (input (sample_row "0" "a" true)) = true /\
  clickListener (TargetINPUT (sample_row "0" "a" true)) unbound_world
    = (Throw TypeError, unbound_world).
Proof.
  split; [reflexivity|]. split; [reflexivity|].
  apply (check_on_unbound_selection_throws (sample_row "0" "a" true)
           unbound_world); reflexivity.
Defined.

(** ** The selection watch, continued *)

(** X5.  When both snapshots are arrays of the same length the selection
    handler does nothing: it returns [false] and the world is unchanged,
    whatever the two arrays hold. *)
Theorem selection_equal_length_noop cur prev w :
  length cur = length prev ->
  onSelectedListUpdated (JArray cur) (JArray prev) w = (Normal (VBool false), w).
Proof.
  intro Hlen. unfold onSelectedListUpdated. simpl.
  rewrite Hlen, Nat.eqb_refl. simpl.
  destruct (checkSelectedItems (listElement w) (JArray cur)) as [[c|e] ul];
    reflexivity.
Qed.

Lemma selection_equal_length_noop_witness :
  length ["b"] = length ["a"] /\
  onSelectedListUpdated (JArray ["b"]) (JArray ["a"]) sample_world
    = (Normal (VBool false), sample_world).
Proof.
  split; [reflexivity|].
  apply (selection_equal_length_noop ["b"] ["a"] sample_world). reflexivity.
Defined.

(** X6.  The re-marking pass is idempotent: once it has run for a selection,
    any further notification carrying the same selection, whatever its
    previous snapshot, leaves the world as the first pass left it. *)
Theorem selection_pass_idempotent cur previous previous' w :
  (previous = JUndefined \/
   exists prev, previous = JArray prev /\ length cur <> length prev) ->
  snd (onSelectedListUpdated (JArray cur) previous'
         (snd (onSelectedListUpdated (JArray cur) previous w)))
    = snd (onSelectedListUpdated (JArray cur) previous w).
Proof.
  intro Hrun. rewrite (onSelectedListUpdated_runs cur previous w Hrun).
  unfold onSelectedListUpdated. rewrite checkSelectedItems_array_any. simpl.
  rewrite marked_prefix_idempotent.
  destruct (forallb has_checkbox
              (marked_prefix cur (children (listElement w))));
    destruct previous' as [prev'|]; simpl; try reflexivity;
    destruct (negb (length cur =? length prev')%nat); reflexivity.
Qed.

Lemma selection_pass_idempotent_witness :
  snd (onSelectedListUpdated (JArray ["b"]) (JArray ["b"; "a"; "c"])
         (snd (onSelectedListUpdated (JArray ["b"]) JUndefined sample_world)))
    = snd (onSelectedListUpdated (JArray ["b"]) JUndefined sample_world).
Proof.
  apply (selection_pass_idempotent ["b"] JUndefined (JArray ["b"; "a"; "c"])
           sample_world).
  left; reflexivity.
Defined.

(** X7.  The selection handler never rebuilds: for every notification, and
    however it completes, the scope, the listeners and the identifier supply
    are untouched and the rows keep their number, order, identifiers, data
    attributes, labels, control types and values. *)
Theorem selection_pass_keeps_rows current previous w :
  let after := snd (onSelectedListUpdated current previous w) in
  scope after = scope w /\
  draws after = draws w /\
  eventListeners (listElement after) = eventListeners (listElement w) /\
  Forall2 (fun old new =>
             identifier new = identifier old /\
             dataset new = dataset old /\
             labelText new = labelText old /\
             type (input new) = type (input old) /\
             value (input new) = value (input old))
    (children (listElement w)) (children (listElement after)).
Proof.
  destruct (onSelectedListUpdated_frame current previous w) as (Hs & Hd & Hl).
  cbv zeta. split; [exact Hs|]. split; [exact Hd|]. split; [exact Hl|].
  destruct (onSelectedListUpdated_rows current previous w)
    as [-> | (selection & _ & ->)].
  - apply Forall2_diag. intro; repeat split; reflexivity.
  - apply Forall2_marked_prefix.
    + intro; repeat split; reflexivity.
    + intro child. apply mark_same_row.
Qed.

(** X8.  A selection notification whose current value is [undefined] throws
    a TypeError as soon as there is a previous array to compare lengths with
    or a row to mark; the rows are left as they were. *)
Theorem selection_undefined_throws previous w :
  isArray previous = true \/ children (listElement w) <> [] ->
  fst (onSelectedListUpdated JUndefined previous w) = Throw TypeError /\
  children (listElement (snd (onSelectedListUpdated JUndefined previous w)))
    = children (listElement w).
Proof.
  intro H. unfold onSelectedListUpdated, checkSelectedItems.
  destruct previous as [prev|]; simpl.
  - split; reflexivity.
  - destruct H as [H|H]; [discriminate H|].
    destruct (children (listElement w)) as [|child rest] eqn:E;
      [contradiction|]. simpl. split; reflexivity.
Qed.

Lemma selection_undefined_throws_witness :
  (isArray (@JUndefined string) = true \/
   children (listElement sample_world) <> []) /\
  fst (onSelectedListUpdated JUndefined JUndefined sample_world) = Throw TypeError.
Proof.
  split; [right; discriminate|].
  apply (selection_undefined_throws JUndefined sample_world).
  right; discriminate.
Defined.

(** X9.  Flags follow a growing selection: on rows that all hold a checkbox
    control, when every row's flag mirrors membership in some selection and
    the new selection contains it, then after a pass that runs every row's
    flag mirrors membership in the new selection. *)
Theorem selection_growth_mirrors old cur previous w :
  checkbox_rows (children (listElement w)) ->
  mirrors old (children (listElement w)) ->
  incl old cur ->
  (previous = JUndefined \/
   exists prev, previous = JArray prev /\ length cur <> length prev) ->
  mirrors cur
    (children (listElement (snd (onSelectedListUpdated (JArray cur) previous w)))).
Proof.
  intros Hrows Hm Hincl Hrun.
  rewrite (onSelectedListUpdated_remarks cur previous w Hrows Hrun). simpl.
  eapply mark_mirrors_growth; eassumption.
Qed.

Lemma selection_growth_mirrors_witness :
  mirrors ["a"; "b"; "c"]
    (children (listElement
       (snd (onSelectedListUpdated (JArray ["a"; "b"; "c"]) (JArray ["a"; "b"])
               sample_world)))).
Proof.
  apply (selection_growth_mirrors ["a"; "b"] ["a"; "b"; "c"] (JArray ["a"; "b"])
           sample_world).
  - unfold checkbox_rows; simpl. repeat constructor.
  - unfold mirrors; simpl.
    repeat constructor; intros _; simpl; auto.
  - intros x Hx; simpl in *; tauto.
  - right. exists ["a"; "b"]. split; [reflexivity | discriminate].
Defined.

(** ** The catalog watch, continued *)

Lemma rendered_rows_checkbox selection cur rows :
  Forall2 (renders selection) cur rows -> checkbox_rows rows.
Proof.
  unfold checkbox_rows.
  induction 1 as [|item li cur' rows' Hr _ IH]; constructor; [|exact IH].
  destruct Hr as (_ & Ht & _). exact Ht.
Qed.

Lemma marked_values selection sel cur rows :
  Forall2 (renders selection) cur rows ->
  map (fun li => value (input (mark sel li))) rows
    = map (fun item => fst (item_fields item)) cur.
Proof.
  induction 1 as [|item li cur' rows' Hr _ IH]; simpl; [reflexivity|].
  f_equal; [|exact IH].
  destruct (mark_same_row sel li) as (_ & _ & _ & _ & ->).
  destruct Hr as (Hv & _). exact Hv.
Qed.

(** X10.  A rebuild followed by a selection notification: when the new
    selection contains the one the rebuild marked against and the pass runs,
    the list holds one row per Item of the catalog and every flag mirrors
    membership in the new selection. *)
Theorem rebuild_then_growth_mirrors randomHex cur previous w sel sprevious :
  cur <> [] ->
  (previous = JUndefined \/
   exists prev, previous = JArray prev /\ length cur <> length prev) ->
  incl (elements (selected (scope w))) sel ->
  (sprevious = JUndefined \/
   exists sprev, sprevious = JArray sprev /\ length sel <> length sprev) ->
  let rebuilt := snd (onAvailableListUpdated randomHex (JArray cur) previous w) in
  let after := snd (onSelectedListUpdated (JArray sel) sprevious rebuilt) in
  length (children (listElement after)) = length cur /\
  map (fun li => value (input li)) (children (listElement after))
    = map (fun item => fst (item_fields item)) cur /\
  mirrors sel (children (listElement after)).
Proof.
  intros Hne Hprev Hincl Hrun. cbv zeta.
  rewrite (onAvailableListUpdated_rebuild randomHex cur previous w Hne Hprev).
  pose proof (rebuilt_rows_render randomHex cur (elements (selected (scope w)))
                (draws w)) as Hrows.
  rewrite onSelectedListUpdated_remarks;
    [| simpl; eapply rendered_rows_checkbox; exact Hrows | exact Hrun].
  simpl.
  split; [|split].
  - rewrite length_map. symmetry. eapply Forall2_length. exact Hrows.
  - rewrite map_map. apply (marked_values _ _ _ _ Hrows).
  - eapply mark_mirrors_growth; [apply rebuilt_rows_mirror | exact Hincl].
Qed.

Lemma rebuild_then_growth_mirrors_witness :
  let rebuilt :=
    snd (onAvailableListUpdated sample_randomHex
           (JArray [PairItem "b" "B"; BareItem "c"; BareItem "a"])
           (JArray [BareItem "a"; BareItem "b"]) sample_world) in
  let after :=
    snd (onSelectedListUpdated (JArray ["a"; "b"; "c"]) JUndefined rebuilt) in
  length (children (listElement after)) = 3 /\
  map (fun li => value (input li)) (children (listElement after))
    = ["b"; "c"; "a"] /\
  mirrors ["a"; "b"; "c"] (children (listElement after)).
Proof.
  apply (rebuild_then_growth_mirrors sample_randomHex
           [PairItem "b" "B"; BareItem "c"; BareItem "a"]
           (JArray [BareItem "a"; BareItem "b"]) sample_world
           ["a"; "b"; "c"] JUndefined).
  - discriminate.
  - right. exists [BareItem "a"; BareItem "b"]. split; [reflexivity | discriminate].
  - intros x Hx; simpl in *; tauto.
  - left; reflexivity.
Defined.

(** X11.  A rebuild draws one identifier per row, in order, from
    [randomHex]; no row gets a [data-identifier] attribute; and the
    identifiers are pairwise distinct whenever the calls to [randomHex] give
    distinct values. *)
Theorem rebuild_identifiers randomHex cur previous w :
  cur <> [] ->
  (previous = JUndefined \/
   exists prev, previous = JArray prev /\ length cur <> length prev) ->
  let after := snd (onAvailableListUpdated randomHex (JArray cur) previous w) in
  map identifier (children (listElement after))
    = map randomHex (seq (draws w) (length cur)) /\
  Forall (fun li => dataset_get (dataset li) "identifier" = None)
    (children (listElement after)) /\
  draws after = draws w + length cur /\
  ((forall i j, randomHex i = randomHex j -> i = j) ->
   NoDup (map identifier (children (listElement after)))).
Proof.
  intros Hne Hprev. cbv zeta.
  rewrite (onAvailableListUpdated_rebuild randomHex cur previous w Hne Hprev).
  simpl. unfold rebuilt_rows.
  rewrite map_combine_seq_identifier.
  split; [reflexivity|]. split; [|split; [reflexivity|]].
  - apply Forall_forall. intros li Hin. apply in_map_iff in Hin.
    destruct Hin as (p & <- & _).
    destruct (createItemElement_identifier randomHex (fst p)
                (elements (selected (scope w))) (snd p)) as (_ & ->).
    reflexivity.
  - intro Hinj. apply Injective_map_NoDup; [exact Hinj | apply seq_NoDup].
Qed.

Lemma rebuild_identifiers_witness :
  map identifier
    (children (listElement
       (snd (onAvailableListUpdated sample_randomHex
               (JArray [BareItem "x"; BareItem "y"; BareItem "z"])
               (JArray [BareItem "a"; BareItem "b"]) sample_world))))
    = map sample_randomHex (seq 2 3).
Proof.
  apply (rebuild_identifiers sample_randomHex
           [BareItem "x"; BareItem "y"; BareItem "z"]
           (JArray [BareItem "a"; BareItem "b"]) sample_world).
  - discriminate.
  - right. exists [BareItem "a"; BareItem "b"]. split; [reflexivity | discriminate].
Defined.

(** X12.  [attachItemElements] by itself only appends: the rows already in
    the list stay in front, one row per Item follows in order, the listeners
    are untouched, one identifier is drawn per Item, and the array returned
    is the one passed in. *)
Theorem attachItemElements_appends randomHex ul n available selected :
  exists added,
    attachItemElements randomHex ul n available selected
      = (available, mkUL (children ul ++ added) (eventListeners ul),
         n + length available) /\
    Forall2 (renders (elements selected)) available added.
Proof.
  destruct (attach_loop_spec randomHex available (children ul)
              (elements selected) n) as (added & Hloop & Hall).
  exists added. split; [|exact Hall].
  unfold attachItemElements.
  replace (match selected with JArray xs => xs | JUndefined => [] end)
    with (elements selected) by reflexivity.
  rewrite Hloop. reflexivity.
Qed.

(** X13.  The catalog handler forgets what was shown: its result and the
    world it leaves do not depend on the rows the list held before the
    notification, and it never changes the scope or the listeners. *)
Theorem catalog_handler_ignores_old_rows randomHex current previous w rows :
  onAvailableListUpdated randomHex current previous
    (set_listElement w (set_children (listElement w) rows))
    = onAvailableListUpdated randomHex current previous w /\
  scope (snd (onAvailableListUpdated randomHex current previous w)) = scope w /\
  eventListeners
    (listElement (snd (onAvailableListUpdated randomHex current previous w)))
    = eventListeners (listElement w).
Proof.
  unfold onAvailableListUpdated. rewrite !clearItemElements_empties. simpl.
  destruct current as [cur|]; [|repeat split].
  destruct (length cur =? 0)%nat; [repeat split|].
  unfold attachItemElements; simpl.
  destruct (attach_loop randomHex [] cur
              match selected (scope w) with JArray xs => xs | JUndefined => [] end
              (draws w)) as [rows' n'].
  destruct previous as [prev|]; [|repeat split].
  destruct (negb (length cur =? length prev)%nat); repeat split.
Qed.

(** ** link, continued *)

(** X14.  With both bindings arrays, [link] adds exactly one click listener
    after those already on the list and installs the watch on [selected]
    and then the watch on [available], both by reference; it renders no row,
    changes neither binding, and returns [undefined], not [true]. *)
Theorem link_registers_handlers w sel cat :
  selected (scope w) = JArray sel ->
  available (scope w) = JArray cat ->
  link w
    = (Normal VUndefined,
       mkWorld
         (mkScope (JArray sel) (JArray cat)
            (watchers (scope w)
               ++ [("selected", onSelectedListUpdatedFn, false);
                   ("available", onAvailableListUpdatedFn, false)]))
         (mkUL (children (listElement w))
            (eventListeners (listElement w) ++ [("click", ClickListener)]))
         (draws w)).
Proof.
  intros Hs Ha. unfold link. rewrite Hs, Ha. simpl.
  unfold watch; simpl. rewrite Hs, Ha, <- app_assoc. reflexivity.
Qed.

Lemma link_registers_handlers_witness :
  link (mkWorld (mkScope (JArray ["b"]) (JArray [BareItem "a"; BareItem "b"]) [])
          (mkUL [] []) 0)
    = (Normal VUndefined,
       mkWorld
         (mkScope (JArray ["b"]) (JArray [BareItem "a"; BareItem "b"])
            ([] ++ [("selected", onSelectedListUpdatedFn, false);
                    ("available", onAvailableListUpdatedFn, false)]))
         (mkUL [] ([] ++ [("click", ClickListener)]))
         0).
Proof.
  apply (link_registers_handlers
           (mkWorld (mkScope (JArray ["b"]) (JArray [BareItem "a"; BareItem "b"]) [])
              (mkUL [] []) 0) ["b"] [BareItem "a"; BareItem "b"]); reflexivity.
Defined.

(** * Properties of the plugin list controller *)

Lemma loader_steps_app es es' :
  PluginList.loader_steps (es ++ es')
    = PluginList.loader_steps es + PluginList.loader_steps es'.
Proof. unfold PluginList.loader_steps. rewrite map_app, list_sum_app. reflexivity. Qed.

Lemma loader_increments_app es es' :
  PluginList.loader_increments (es ++ es')
    = PluginList.loader_increments es + PluginList.loader_increments es'.
Proof.
  unfold PluginList.loader_increments. rewrite filter_app, length_app. reflexivity.
Qed.

Section PluginListFacts.

Variable V : Type.
Variable isObject : V -> bool.
Variable Filters : Type.
Variable urlQuery : option Filters -> string.
Variable urlOffset : V -> string.
Variable epochToDate : Z -> string -> string.
Variable getConfig : string -> string.
Variable _deleteTableRow :
  PluginList.Target -> PluginList.Controller -> JSValue * PluginList.Controller.

Local Abbreviation pluginRow := (PluginList.pluginRow V isObject epochToDate getConfig).
Local Abbreviation fetch_loop := (PluginList.fetch_loop V isObject epochToDate getConfig).
Local Abbreviation fetchPluginList := (PluginList.fetchPluginList Filters urlQuery).
Local Abbreviation fetchPluginList_settled :=
  (PluginList.fetchPluginList_settled V isObject urlOffset epochToDate getConfig).
Local Abbreviation handleTableClickEvents :=
  (PluginList.handleTableClickEvents _deleteTableRow).
Local Abbreviation PluginListController :=
  (PluginList.PluginListController Filters urlQuery).

Lemma fetch_loop_appends plugins :
  forall rows, fetch_loop plugins rows = rows ++ map pluginRow plugins.
Proof.
  induction plugins as [|plugin rest IH]; intro rows; simpl.
  - rewrite app_nil_r. reflexivity.
  - rewrite IH. unfold push. rewrite <- app_assoc. reflexivity.
Qed.

(** X15.  A fulfilled fetch only ever adds to the list: the entries already
    listed stay in front, one entry per plugin of the response follows in
    the order of the response, the offset becomes that of the response, and
    the loader is incremented. *)
Theorem fetch_fulfilled_appends response c :
  let after := fetchPluginList_settled (PluginList.Fulfilled response) c in
  PluginList.pluginList after
    = PluginList.pluginList c ++ map pluginRow (PluginList.data V response) /\
  PluginList.pluginNext_offset after = urlOffset (PluginList.next V response) /\
  PluginList.effects after = PluginList.effects c ++ [PluginList.IncrementLoader].
Proof.
  simpl. rewrite fetch_loop_appends. repeat split.
Qed.

(** X16.  A fetch is balanced whichever way its request settles: the loader
    is given one step when the request is made and one increment when it
    settles; a rejection toasts one error and leaves the list and the offset
    as they were. *)
Theorem fetch_balances_loader filters s c :
  let after := fetchPluginList_settled s (snd (fetchPluginList filters c)) in
  PluginList.loader_steps (PluginList.effects after)
    = PluginList.loader_steps (PluginList.effects c) + 1 /\
  PluginList.loader_increments (PluginList.effects after)
    = PluginList.loader_increments (PluginList.effects c) + 1 /\
  match s with
  | PluginList.Fulfilled _ => True
  | PluginList.Rejected =>
      PluginList.pluginList after = PluginList.pluginList c /\
      PluginList.pluginNext_offset after = PluginList.pluginNext_offset c /\
      PluginList.effects after
        = PluginList.effects c
            ++ [PluginList.RestGet ("/plugins" ++ urlQuery filters)%string;
                PluginList.SetLoaderSteps 1;
                PluginList.ToastError "Could not load list of plugins.";
                PluginList.IncrementLoader]
  end.
Proof.
  destruct s as [response|]; cbn [PluginList.fetchPluginList_settled
    PluginList.fetchPluginList PluginList.perform PluginList.effects
    PluginList.pluginList PluginList.pluginNext_offset snd];
    rewrite !loader_steps_app, !loader_increments_app;
    unfold PluginList.loader_steps, PluginList.loader_increments; simpl.
  - repeat split; lia.
  - repeat split; try lia. rewrite <- !app_assoc. reflexivity.
Qed.

(** X17.  The object names of an entry: the names Service, Route and
    Consumer of the fields that are objects, in that order; the entry shows
    None exactly when none of the three is an object. *)
Theorem objectNames_listed plugin :
  PluginList.objectNames V isObject plugin
    = map fst
        (filter snd
           [("Service", isObject (PluginList.service V plugin));
            ("Route", isObject (PluginList.route V plugin));
            ("Consumer", isObject (PluginList.consumer V plugin))]) /\
  PluginList.row_objectNames (pluginRow plugin)
    = (if negb (isObject (PluginList.service V plugin))
          && negb (isObject (PluginList.route V plugin))
          && negb (isObject (PluginList.consumer V plugin))
       then "None"
       else PluginList.join ", " (PluginList.objectNames V isObject plugin)) /\
  (PluginList.row_objectNames (pluginRow plugin) = "None" <->
   isObject (PluginList.service V plugin) = false /\
   isObject (PluginList.route V plugin) = false /\
   isObject (PluginList.consumer V plugin) = false).
Proof.
  unfold PluginList.pluginRow, PluginList.objectNames; simpl.
  destruct (isObject (PluginList.service V plugin));
    destruct (isObject (PluginList.route V plugin));
    destruct (isObject (PluginList.consumer V plugin)); simpl;
    (split; [reflexivity|]); (split; [reflexivity|]);
    split; try discriminate; try tauto;
    intros (H1 & H2 & H3); discriminate.
Qed.

(** X18.  An empty protocols array is not shown as None: the entry's
    protocols are then the empty string. *)
Theorem protocols_empty_array_shown_empty plugin :
  PluginList.protocols V plugin = JArray [] ->
  PluginList.row_protocols (pluginRow plugin) = "" /\
  PluginList.row_protocols (pluginRow plugin) <> "None".
Proof.
  intro H. unfold PluginList.pluginRow; simpl. rewrite H. simpl.
  split; [reflexivity | discriminate].
Qed.

(** X19.  [_togglePluginState] refuses what is not a checkbox control: it
    returns [false], sends nothing and does not touch the loader. *)
Theorem toggle_refuses_non_checkbox target c :
  PluginList.nodeName target <> "INPUT" \/
  PluginList.type target <> Some "checkbox" ->
  PluginList._togglePluginState target c = (VBool false, c).
Proof.
  intro H. unfold PluginList._togglePluginState, PluginList.type_is_not.
  destruct (String.eqb_spec (PluginList.nodeName target) "INPUT") as [Hn|Hn];
    simpl; [|reflexivity].
  destruct H as [H|H]; [contradiction|].
  destruct (PluginList.type target) as [t|]; [|reflexivity].
  destruct (String.eqb_spec t "checkbox") as [->|Ht]; [|reflexivity].
  contradiction H. reflexivity.
Qed.

(** X20.  [handleTableClickEvents] sends a checkbox control to
    [_togglePluginState], whose own guard then always passes: the loader
    gets one step, one PATCH goes to the plugin named by the control's value
    with the control's state, and [true] is returned; every other target
    goes to [_deleteTableRow] and to nothing else. *)
Theorem table_click_dispatch target c :
  handleTableClickEvents target c
    = if String.eqb (PluginList.nodeName target) "INPUT"
         && negb (PluginList.type_is_not target "checkbox")
      then (VBool true,
            PluginList.perform c
              [PluginList.SetLoaderSteps 1;
               PluginList.RestPatch ("/plugins/" ++ PluginList.value target)%string
                 (PluginList.checked target)])
      else _deleteTableRow target c.
Proof.
  unfold PluginList.handleTableClickEvents, PluginList._togglePluginState.
  destruct (String.eqb (PluginList.nodeName target) "INPUT"); simpl;
    [|reflexivity].
  destruct (PluginList.type_is_not target "checkbox"); simpl; [reflexivity|].
  unfold PluginList.perform; simpl. rewrite <- app_assoc. reflexivity.
Qed.

(** X21.  A toggle of a checkbox control, from the click to the settling of
    its request: one loader step, one PATCH carrying the state the control
    had at the click, one toast, one loader increment.  The success toast
    names the state the control has when the request settles. *)
Theorem toggle_trace target settled s c :
  PluginList.nodeName target = "INPUT" ->
  PluginList.type target = Some "checkbox" ->
  PluginList.effects
    (PluginList._togglePluginState_settled s settled
       (snd (PluginList._togglePluginState target c)))
    = PluginList.effects c
        ++ [PluginList.SetLoaderSteps 1;
            PluginList.RestPatch ("/plugins/" ++ PluginList.value target)%string
              (PluginList.checked target);
            match s with
            | PluginList.Fulfilled _ =>
                PluginList.ToastSuccess
                  (if PluginList.checked settled then "Plugin enabled."
                   else "Plugin disabled.")
            | PluginList.Rejected =>
                PluginList.ToastError "Unable to change plugin state."
            end;
            PluginList.IncrementLoader].
Proof.
  intros Hn Ht.
  unfold PluginList._togglePluginState, PluginList.type_is_not.
  rewrite Hn, Ht. simpl.
  destruct s as [u|]; simpl; rewrite <- !app_assoc; simpl;
    [destruct (PluginList.checked settled)|]; reflexivity.
Qed.

(** X22.  The constructor starts from an empty list, sets the title, the
    breadcrumb and the action, and asks once for the plugins with no filter;
    when that request is fulfilled the list is exactly the entries of the
    response, in its order. *)
Theorem controller_first_page response :
  PluginList.pluginList PluginListController = [] /\
  PluginList.effects PluginListController
    = [PluginList.SetTitle "Plugins";
       PluginList.ClearBreadcrumbs;
       PluginList.AddBreadcrumb "/plugins" "Plugins";
       PluginList.AddAction "Apply Plugin" "#!/plugins/__create__";
       PluginList.RestGet ("/plugins" ++ urlQuery None)%string;
       PluginList.SetLoaderSteps 1] /\
  PluginList.pluginList
    (fetchPluginList_settled (PluginList.Fulfilled response) PluginListController)
    = map pluginRow (PluginList.data V response).
Proof.
  split; [reflexivity|]. split; [reflexivity|].
  simpl. rewrite fetch_loop_appends. reflexivity.
Qed.

End PluginListFacts.

Lemma protocols_empty_array_shown_empty_witness :
  PluginList.protocols (option string) PluginList.sample_plugin = JArray [] /\
  PluginList.row_protocols
    (PluginList.pluginRow (option string) PluginList.sample_isObject
       PluginList.sample_epochToDate PluginList.sample_getConfig
       PluginList.sample_plugin) = "".
Proof.
  split; [reflexivity|].
  apply (protocols_empty_array_shown_empty (option string)
           PluginList.sample_isObject PluginList.sample_epochToDate
           PluginList.sample_getConfig PluginList.sample_plugin).
  reflexivity.
Defined.

Lemma toggle_refuses_non_checkbox_witness :
  (PluginList.nodeName PluginList.sample_bin_icon <> "INPUT" \/
   PluginList.type PluginList.sample_bin_icon <> Some "checkbox") /\
  PluginList._togglePluginState PluginList.sample_bin_icon
    (PluginList.mkController [] "" [])
    = (VBool false, PluginList.mkController [] "" []).
Proof.
  split; [left; discriminate|].
  apply (toggle_refuses_non_checkbox PluginList.sample_bin_icon
           (PluginList.mkController [] "" [])).
  left; discriminate.
Defined.

Lemma toggle_trace_witness :
  PluginList.effects
    (PluginList._togglePluginState_settled (PluginList.Fulfilled tt)
       (PluginList.mkTarget "INPUT" (Some "checkbox") "p1" true)
       (snd (PluginList._togglePluginState PluginList.sample_checkbox
               (PluginList.mkController [] "" []))))
    = [] ++ [PluginList.SetLoaderSteps 1;
             PluginList.RestPatch "/plugins/p1" false;
             PluginList.ToastSuccess "Plugin enabled.";
             PluginList.IncrementLoader].
Proof.
  apply (toggle_trace PluginList.sample_checkbox
           (PluginList.mkTarget "INPUT" (Some "checkbox") "p1" true)
           (PluginList.Fulfilled tt) (PluginList.mkController [] "" []));
    reflexivity.
Defined.

(** The entry built for a plugin attached to a service and a consumer. *)
Example sample_plugin_row :
  PluginList.pluginRow (option string) PluginList.sample_isObject
    PluginList.sample_epochToDate PluginList.sample_getConfig
    PluginList.sample_plugin
  = PluginList.mkRow "p1" true "key-auth" "" "dateFormat" "Service, Consumer".
Proof. reflexivity. Qed.

(** The pass stops at a row whose control is not a checkbox: the lookup
    finds nothing there, reading its value throws, the rows before it are
    marked and the rows from it on are left alone. *)
Example pass_stops_at_foreign_row :
  onSelectedListUpdated (JArray ["a"; "c"]) JUndefined
    (mkWorld (mkScope (JArray ["a"; "c"]) (JArray []) [])
       (mkUL [mkLI "0" [] "a" (mkInput "checkbox" "a" false);
              mkLI "1" [] "b" (mkInput "radio" "b" false);
              mkLI "2" [] "c" (mkInput "checkbox" "c" false)] []) 3)
  = (Throw TypeError,
     mkWorld (mkScope (JArray ["a"; "c"]) (JArray []) [])
       (mkUL [mkLI "0" [] "a" (mkInput "checkbox" "a" true);
              mkLI "1" [] "b" (mkInput "radio" "b" false);
              mkLI "2" [] "c" (mkInput "checkbox" "c" false)] []) 3).
Proof. reflexivity. Qed.
